(** * The [sessions_spawn] tool: request normalisation and model allowlist

    A shallow embedding of [src/agents/tools/sessions-spawn-tool.ts].  The
    tool's [execute] function reads untyped parameters, normalises them,
    checks an optional model override against the allowed-model set and
    hands a canonical request to [spawnSubagentDirect].

    JavaScript values are an inductive type, the parameter object is a
    finite map from property names to values, numbers are IEEE-754 values
    ([spec_float]), and the effects of [execute] (two external reads, one
    external call, exceptions) live in a small trace-and-exception monad. *)

From Stdlib Require Import ZArith Lia List Bool Ascii String SpecFloat.
From stdpp Require Import base option gmap strings fin_maps.

Local Open Scope string_scope.
Local Open Scope Z_scope.

(** ** JavaScript values *)

(** A JavaScript number is a binary64 value; [spec_float] has exactly its
    shapes: signed zero, signed infinity, NaN and [(-1)^s * m * 2^e]. *)
Definition JsNum : Type := spec_float.

(** The values a parameter can hold; [JsOther] stands for objects, arrays
    and whatever else is neither a primitive read by [execute]. *)
Inductive JsValue : Type :=
| JsUndefined
| JsNull
| JsBoolean (b : bool)
| JsNumber (x : JsNum)
| JsString (s : string)
| JsOther.

(** [Record<string, unknown>]: reading a property that is not there gives
    [undefined]. *)
Definition prop (params : gmap string JsValue) (key : string) : JsValue :=
  default JsUndefined (params !! key).

(** ** Strings *)

(** Code units below 256 that [String.prototype.trim] strips: TAB, LF, VT,
    FF, CR, SPACE and NO-BREAK SPACE. *)
Definition is_js_whitespace (c : ascii) : bool :=
  let n := nat_of_ascii c in
  ((9 <=? n)%nat && (n <=? 13)%nat) || (n =? 32)%nat || (n =? 160)%nat.

Fixpoint trim_start (s : string) : string :=
  match s with
  | String c rest => if is_js_whitespace c then trim_start rest else s
  | EmptyString => EmptyString
  end.

Fixpoint string_rev_onto (acc s : string) : string :=
  match s with
  | String c rest => string_rev_onto (String c acc) rest
  | EmptyString => acc
  end.

Definition string_rev (s : string) : string := string_rev_onto EmptyString s.

Definition trim_end (s : string) : string :=
  string_rev (trim_start (string_rev s)).

(** [s.trim()] *)
Definition js_trim (s : string) : string := trim_end (trim_start s).

(** Truthiness of a string: every string but the empty one. *)
Definition string_truthy (s : string) : bool :=
  match s with EmptyString => false | String _ _ => true end.

(** Truthiness of [string | undefined]. *)
Definition truthy (o : option string) : bool :=
  match o with Some s => string_truthy s | None => false end.

(** [Array.prototype.join] on strings. *)
Definition js_join (sep : string) (items : list string) : string :=
  String.concat sep items.

(** ** Numbers *)

(** [Number.isFinite] *)
Definition Number_isFinite (x : JsNum) : bool :=
  match x with
  | S754_zero _ | S754_finite _ _ _ => true
  | S754_infinity _ | S754_nan => false
  end.

(** The signed mantissa of a finite value, so that the value is
    [signed_mantissa * 2^e]. *)
Definition signed_mantissa (s : bool) (m : positive) : Z :=
  if s then Z.neg m else Z.pos m.

(** [Math.floor] on the values [execute] gives it, the finite ones (the call
    sits behind the [Number.isFinite] test; the floor of NaN or of an
    infinity is that value and denotes no integer).  The floor of a finite
    binary64 value is an integer that is itself a binary64 value; it is kept
    as the integer it denotes.  [Z.shiftl] by a negative amount is the
    flooring division by a power of two. *)
Definition Math_floor (x : JsNum) : Z :=
  match x with
  | S754_finite s m e => Z.shiftl (signed_mantissa s m) e
  | _ => 0
  end.

(** [Math.max(0, n)] on an integer-valued number. *)
Definition Math_max0 (n : Z) : Z := Z.max 0 n.

(** Sign test used to say "negative": a finite value below zero. *)
Definition is_negative (x : JsNum) : bool :=
  match x with
  | S754_finite true _ _ => true
  | _ => false
  end.

(** [z] is the floor of the finite value [x]: the greatest integer that is
    not above [(-1)^s * m * 2^e], stated on integers by scaling with the
    power of two. *)
Definition is_floor (z : Z) (x : JsNum) : Prop :=
  match x with
  | S754_zero _ => z = 0
  | S754_finite s m e =>
      if 0 <=? e then z = signed_mantissa s m * 2 ^ e
      else z * 2 ^ (- e) <= signed_mantissa s m < (z + 1) * 2 ^ (- e)
  | _ => False
  end.

(** What the spec says of a numeric timeout [x] and the forwarded field
    [r]: non-finite gives an absent field, negative gives 0, and a finite
    value is floored and clamped below by 0. *)
Definition timeout_rule (x : JsNum) (r : option Z) : Prop :=
  (Number_isFinite x = false -> r = None) /\
  (is_negative x = true -> r = Some 0) /\
  (Number_isFinite x = true -> exists z, is_floor z x /\ r = Some (Z.max 0 z)).

(** A string made of whitespace only (the empty string included). *)
Fixpoint all_whitespace (s : string) : bool :=
  match s with
  | EmptyString => true
  | String c rest => is_js_whitespace c && all_whitespace rest
  end.

(** ** Data model *)

(** The options the tool is created with; every field is optional, and
    [string | null] fields carry an inner option for [null]. *)
Module ToolOpts.
Record t : Type := make {
  agentSessionKey : option string;
  agentChannel : option string;
  agentAccountId : option string;
  agentTo : option string;
  agentThreadId : option (string + JsNum);
  agentGroupId : option (option string);
  agentGroupChannel : option (option string);
  agentGroupSpace : option (option string);
  sandboxed : option bool;
  requesterAgentIdOverride : option string
}.
End ToolOpts.

(** Second argument of [spawnSubagentDirect]: where results are routed. *)
Record RequesterContext : Type := {
  agentSessionKey : option string;
  agentChannel : option string;
  agentAccountId : option string;
  agentTo : option string;
  agentThreadId : option (string + JsNum);
  agentGroupId : option (option string);
  agentGroupChannel : option (option string);
  agentGroupSpace : option (option string);
  requesterAgentIdOverride : option string
}.

(** First argument of [spawnSubagentDirect]. *)
Record SpawnRequest : Type := {
  task : string;
  label : option string;
  agentId : option string;
  model : option string;
  thinking : option string;
  runTimeoutSeconds : option Z;
  thread : bool;
  mode : option string;
  cleanup : string;
  expectsCompletionMessage : bool
}.

(** Result of [parseModelRef]. *)
Module ModelRef.
Record t : Type := make { provider : string; model : string }.
End ModelRef.

(** Result of [buildAllowedModelSet].  [allowedKeys] is a JavaScript [Set]:
    the list is its iteration (insertion) order. *)
Record AllowedModelSet : Type := {
  allowAny : bool;
  allowedKeys : list string
}.

(** [Set.prototype.has] *)
Definition Set_has (keys : list string) (key : string) : bool :=
  existsb (String.eqb key) keys.

(** The object literal [{ status, error }] of the two rejections. *)
Record ErrorBody : Type := { status : string; error : string }.

(** ** Effects *)

(** What [execute] does to the outside world, in order. *)
Inductive Event : Type :=
| EvLoadConfig
| EvLoadModelCatalog
| EvSpawn (req : SpawnRequest) (ctx : RequesterContext).

(** Exceptions.  [InvalidInput field] is the failure of a required
    parameter read. *)
Inductive Exn : Type :=
| InvalidInput (field : string).

Inductive Outcome (A : Type) : Type :=
| Returned (a : A)
| Thrown (e : Exn).
Arguments Returned {A} a.
Arguments Thrown {A} e.

(** A computation extends the trace of events and returns or throws. *)
Definition M (A : Type) : Type := list Event -> Outcome A * list Event.

#[global] Instance M_ret : MRet M := fun A a tr => (Returned a, tr).

#[global] Instance M_bind : MBind M := fun A B k m tr =>
  match m tr with
  | (Returned a, tr') => k a tr'
  | (Thrown e, tr') => (Thrown e, tr')
  end.

Definition throw {A : Type} (e : Exn) : M A := fun tr => (Thrown e, tr).

Definition emit (ev : Event) : M unit := fun tr => (Returned tt, (tr ++ [ev])%list).

(** Run a computation from the empty trace. *)
Definition run {A : Type} (m : M A) : Outcome A * list Event := m [].

Definition is_spawn (ev : Event) : bool :=
  match ev with EvSpawn _ _ => true | _ => false end.

Definition is_load (ev : Event) : bool :=
  match ev with EvLoadConfig | EvLoadModelCatalog => true | _ => false end.

(** How many times the spawning service was called. *)
Definition spawn_calls (tr : list Event) : nat := length (List.filter is_spawn tr).

(** How many configuration and catalog loads happened. *)
Definition load_calls (tr : list Event) : nat := length (List.filter is_load tr).

(** ** Parameter readers of [./common.js] *)

(** A string is blank when nothing is left of it after trimming. *)
Definition is_blank (s : string) : bool := negb (string_truthy (js_trim s)).

(** Modelled from the spec: [readStringParam] with [{ required: true }]
    ([./common.js] is not part of the sources).  The spec: "[task]: required
    string; missing or empty fails with [InvalidInput]", and the failure
    covers a [task] that is "empty/whitespace-only" and mentions the missing
    field.  A present, non-blank string is the parameter's value. *)
Definition readStringParamRequired
    (params : gmap string JsValue) (key : string) : M string :=
  match prop params key with
  | JsString raw => if is_blank raw then throw (InvalidInput key) else mret raw
  | _ => throw (InvalidInput key)
  end.

(** Modelled from the spec: [readStringParam] without options ([./common.js]
    is not part of the sources).  The spec: "[agentId], [model], [thinking]:
    optional strings, passed through verbatim if present and non-empty". *)
Definition readStringParam
    (params : gmap string JsValue) (key : string) : option string :=
  match prop params key with
  | JsString raw => if string_truthy raw then Some raw else None
  | _ => None
  end.

(** ** Normalisation of the raw parameters (lines 48-66) *)

(** [typeof params.label === "string" ? params.label.trim() : ""] *)
Definition label_of (params : gmap string JsValue) : string :=
  match prop params "label" with
  | JsString s => js_trim s
  | _ => ""
  end.

(** [x || undefined] on a string. *)
Definition or_undefined (s : string) : option string :=
  if string_truthy s then Some s else None.

(** [params.mode === "run" || params.mode === "session" ? params.mode : undefined] *)
Definition mode_of (params : gmap string JsValue) : option string :=
  match prop params "mode" with
  | JsString s => if String.eqb s "run" || String.eqb s "session" then Some s else None
  | _ => None
  end.

(** [params.cleanup === "keep" || params.cleanup === "delete" ? params.cleanup : "keep"] *)
Definition cleanup_of (params : gmap string JsValue) : string :=
  match prop params "cleanup" with
  | JsString s => if String.eqb s "keep" || String.eqb s "delete" then s else "keep"
  | _ => "keep"
  end.

(** The value of [runTimeoutSeconds] when it is a number, else that of the
    older [timeoutSeconds] when it is a number, else [undefined]. *)
Definition timeoutSecondsCandidate (params : gmap string JsValue) : option JsNum :=
  match prop params "runTimeoutSeconds" with
  | JsNumber x => Some x
  | _ =>
      match prop params "timeoutSeconds" with
      | JsNumber y => Some y
      | _ => None
      end
  end.

(** [Number.isFinite(c) ? Math.max(0, Math.floor(c)) : undefined] *)
Definition normalizeTimeout (candidate : option JsNum) : option Z :=
  match candidate with
  | Some c => if Number_isFinite c then Some (Math_max0 (Math_floor c)) else None
  | None => None
  end.

Definition runTimeoutSeconds_of (params : gmap string JsValue) : option Z :=
  normalizeTimeout (timeoutSecondsCandidate params).

(** [params.thread === true] *)
Definition thread_of (params : gmap string JsValue) : bool :=
  match prop params "thread" with
  | JsBoolean true => true
  | _ => false
  end.

(** The request object literal of lines 98-109. *)
Definition spawnRequest_of (task : string) (params : gmap string JsValue) : SpawnRequest :=
  {| task := task;
     label := or_undefined (label_of params);
     agentId := readStringParam params "agentId";
     model := readStringParam params "model";
     thinking := readStringParam params "thinking";
     runTimeoutSeconds := runTimeoutSeconds_of params;
     thread := thread_of params;
     mode := mode_of params;
     cleanup := cleanup_of params;
     expectsCompletionMessage := true |}.

(** [opts?.field] *)
Definition opt_field {A : Type} (opts : option ToolOpts.t)
    (field : ToolOpts.t -> option A) : option A :=
  match opts with
  | Some o => field o
  | None => None
  end.

(** The context object literal of lines 110-120. *)
Definition requesterContext_of (opts : option ToolOpts.t) : RequesterContext :=
  {| agentSessionKey := opt_field opts ToolOpts.agentSessionKey;
     agentChannel := opt_field opts ToolOpts.agentChannel;
     agentAccountId := opt_field opts ToolOpts.agentAccountId;
     agentTo := opt_field opts ToolOpts.agentTo;
     agentThreadId := opt_field opts ToolOpts.agentThreadId;
     agentGroupId := opt_field opts ToolOpts.agentGroupId;
     agentGroupChannel := opt_field opts ToolOpts.agentGroupChannel;
     agentGroupSpace := opt_field opts ToolOpts.agentGroupSpace;
     requesterAgentIdOverride := opt_field opts ToolOpts.requesterAgentIdOverride |}.

(** The inputs of the first testable property: [task] is missing, or is a
    string that is empty or whitespace-only. *)
Definition task_missing_or_blank (params : gmap string JsValue) : bool :=
  match prop params "task" with
  | JsUndefined => true
  | JsString s => all_whitespace s
  | _ => false
  end.

(** ** The collaborators *)

(** What the file imports from the rest of the repository, whose code lives
    elsewhere: the configuration and the catalog that the two loaders
    return, the default provider, the allowlist builder, the model
    reference parser, the key function and the spawning service. *)
Class Collaborators : Type := {
  Config : Type;
  Catalog : Type;
  SpawnResult : Type;
  config_snapshot : Config;
  catalog_snapshot : Catalog;
  DEFAULT_PROVIDER : string;
  buildAllowedModelSet : Config -> Catalog -> string -> AllowedModelSet;
  parseModelRef : string -> string -> option ModelRef.t;
  modelKey : string -> string -> string;
  spawn_service : SpawnRequest -> RequesterContext -> SpawnResult
}.

(** ** The tool's [execute] function *)

Section Execute.

Context {W : Collaborators}.

(** What [jsonResult] is given: a rejection literal or the service's
    result. *)
Inductive Payload : Type :=
| ErrorPayload (body : ErrorBody)
| SpawnPayload (result : SpawnResult).

Record AgentToolResult : Type := { details : Payload }.

(** Modelled from the spec: [jsonResult] ([./common.js] is not part of the
    sources).  The spec: the return payload is "on validation failure,
    [{status: "error", error: <message>}]; on success, whatever the
    spawning service returns, unmodified". *)
Definition jsonResult (payload : Payload) : AgentToolResult :=
  {| details := payload |}.

Definition loadConfig : M Config :=
  _ ← emit EvLoadConfig; mret config_snapshot.

Definition loadModelCatalog : M Catalog :=
  _ ← emit EvLoadModelCatalog; mret catalog_snapshot.

Definition spawnSubagentDirect (req : SpawnRequest) (ctx : RequesterContext)
    : M SpawnResult :=
  _ ← emit (EvSpawn req ctx); mret (spawn_service req ctx).

Definition model_not_allowed (key : string) (keys : list string) : ErrorBody :=
  {| status := "error";
     error := "model not allowed: " +:+ key +:+ ". Allowed models: " +:+ js_join ", " keys |}.

Definition invalid_model_ref (modelOverride : string) : ErrorBody :=
  {| status := "error";
     error := "invalid model ref: " +:+ modelOverride |}.

(** Lines 69-95, the validation of the model override.  [Some r] is an
    early [return r]; [None] falls through to the dispatch. *)
Definition validateModelOverride (modelOverride : option string)
    : M (option AgentToolResult) :=
  match modelOverride with
  | Some override =>
      if string_truthy override then
        cfg ← loadConfig;
        catalog ← loadModelCatalog;
        let allowed := buildAllowedModelSet cfg catalog DEFAULT_PROVIDER in
        if negb (allowAny allowed) then
          match parseModelRef override DEFAULT_PROVIDER with
          | Some parsed =>
              let key := modelKey (ModelRef.provider parsed) (ModelRef.model parsed) in
              if negb (Set_has (allowedKeys allowed) key) then
                mret (Some (jsonResult
                  (ErrorPayload (model_not_allowed key (allowedKeys allowed)))))
              else mret None
          | None =>
              mret (Some (jsonResult (ErrorPayload (invalid_model_ref override))))
          end
        else mret None
      else mret None
  | None => mret None
  end.

(** Lines 97-123: call the service and wrap what it returns. *)
Definition dispatch (opts : option ToolOpts.t) (task : string)
    (params : gmap string JsValue) : M AgentToolResult :=
  result ← spawnSubagentDirect (spawnRequest_of task params) (requesterContext_of opts);
  mret (jsonResult (SpawnPayload result)).

(** Lines 45-124.  The spec calls this operation [handleSpawn]. *)
Definition execute (opts : option ToolOpts.t) (params : gmap string JsValue)
    : M AgentToolResult :=
  task ← readStringParamRequired params "task";
  early ← validateModelOverride (readStringParam params "model");
  match early with
  | Some rejection => mret rejection
  | None => dispatch opts task params
  end.

End Execute.

(** The allowed-model set that [execute] builds. *)
Definition current_allowed {W : Collaborators} : AllowedModelSet :=
  buildAllowedModelSet config_snapshot catalog_snapshot DEFAULT_PROVIDER.

(** The runs of [execute] that reach the spawning service: the loads made
    before it, then the one call, whose result is wrapped and returned. *)
Definition forwarded {W : Collaborators} (opts : option ToolOpts.t)
    (params : gmap string JsValue) (loads : list Event) (t : string)
    : Outcome AgentToolResult * list Event :=
  (Returned (jsonResult (SpawnPayload
     (spawn_service (spawnRequest_of t params) (requesterContext_of opts)))),
   (loads ++ [EvSpawn (spawnRequest_of t params) (requesterContext_of opts)])%list).

(** The runs that stop at the allowlist: both loads, no call. *)
Definition rejected {W : Collaborators} (body : ErrorBody)
    : Outcome AgentToolResult * list Event :=
  (Returned (jsonResult (ErrorPayload body)), [EvLoadConfig; EvLoadModelCatalog]).

(** Every run has one of three shapes: the required read throws, the
    allowlist rejects, or the request is forwarded. *)
Inductive RunShape {W : Collaborators} (opts : option ToolOpts.t)
    (params : gmap string JsValue)
    : Outcome AgentToolResult * list Event -> Prop :=
| shape_thrown :
    (forall t, prop params "task" = JsString t -> is_blank t = true) ->
    RunShape opts params (Thrown (InvalidInput "task"), [])
| shape_rejected body :
    RunShape opts params (rejected body)
| shape_forwarded loads t :
    prop params "task" = JsString t -> is_blank t = false ->
    Forall (fun ev => is_load ev = true) loads ->
    RunShape opts params (forwarded opts params loads t).

(** ** A concrete deployment, to run the definitions on *)

Module Demo.

(** [provider/model], with the default provider for a bare name; a name
    with a space in it does not parse. *)
Fixpoint split_slash (s : string) : option (string * string) :=
  match s with
  | EmptyString => None
  | String c rest =>
      if Ascii.eqb c "/"%char then Some (EmptyString, rest)
      else match split_slash rest with
           | Some (p, m) => Some (String c p, m)
           | None => None
           end
  end.

Fixpoint has_space (s : string) : bool :=
  match s with
  | EmptyString => false
  | String c rest => Ascii.eqb c " "%char || has_space rest
  end.

Definition parse (raw defaultProvider : string) : option ModelRef.t :=
  if has_space raw then None
  else match split_slash raw with
       | Some (p, m) => Some (ModelRef.make p m)
       | None => Some (ModelRef.make defaultProvider raw)
       end.

Definition key (provider model : string) : string := provider +:+ "/" +:+ model.

Definition service (req : SpawnRequest) (ctx : RequesterContext) : string :=
  "accepted: " +:+ task req.

(** A deployment whose configuration is the allowlist itself. *)
Definition world (allowed : AllowedModelSet) : Collaborators :=
  {| Config := AllowedModelSet;
     Catalog := unit;
     SpawnResult := string;
     config_snapshot := allowed;
     catalog_snapshot := tt;
     DEFAULT_PROVIDER := "anthropic";
     buildAllowedModelSet := fun cfg _ _ => cfg;
     parseModelRef := parse;
     modelKey := key;
     spawn_service := service |}.

Definition restrictive : AllowedModelSet :=
  {| allowAny := false;
     allowedKeys := ["anthropic/claude-sonnet"; "openai/gpt-4o"] |}.

Definition permissive : AllowedModelSet :=
  {| allowAny := true; allowedKeys := [] |}.

End Demo.

(** ** The end-to-end scenario of the spec *)

(** 45.9 as a binary64 value: 6459850715509555 * 2^-47. *)
Definition num_45_9 : JsNum := S754_finite false 6459850715509555 (-47).

(** [{task: "summarize doc", mode: "session", cleanup: "delete",
     runTimeoutSeconds: 45.9}] *)
Definition scenario : gmap string JsValue :=
  <["task" := JsString "summarize doc"]>
  (<["mode" := JsString "session"]>
  (<["cleanup" := JsString "delete"]>
  (<["runTimeoutSeconds" := JsNumber num_45_9]> ∅))).

Definition scenario_request : SpawnRequest :=
  {| task := "summarize doc";
     label := None;
     agentId := None;
     model := None;
     thinking := None;
     runTimeoutSeconds := Some 45;
     thread := false;
     mode := Some "session";
     cleanup := "delete";
     expectsCompletionMessage := true |}.


(** Variations of the scenario. *)
Definition with_model (m : string) : gmap string JsValue :=
  <["model" := JsString m]> scenario.

Definition with_blank_task : gmap string JsValue :=
  <["task" := JsString "   "]> scenario.

(** Both timeout fields at once: [runTimeoutSeconds: 45.9, timeoutSeconds: 5]. *)
Definition with_both_timeouts : gmap string JsValue :=
  <["timeoutSeconds" := JsNumber (S754_finite false 5 0)]> scenario.

Definition no_opts : option ToolOpts.t := None.

(** ** The declared parameters (lines 12-24) *)

(** The schema constructors the declaration uses. *)
Inductive TSchema : Type :=
| TString
| TNumber (minimum : option Z)
| TBoolean
| TOptional (inner : TSchema)
| TOptionalStringEnum (values : list string).

(** [SessionsSpawnToolSchema], an object schema as the list of its
    properties in declaration order.  [SUBAGENT_SPAWN_MODES] is imported
    from [../subagent-spawn.js] and is a parameter here. *)
Definition SessionsSpawnToolSchema (SUBAGENT_SPAWN_MODES : list string)
    : list (string * TSchema) :=
  [ ("task", TString);
    ("label", TOptional TString);
    ("agentId", TOptional TString);
    ("model", TOptional TString);
    ("thinking", TOptional TString);
    ("runTimeoutSeconds", TOptional (TNumber (Some 0)));
    ("timeoutSeconds", TOptional (TNumber (Some 0)));
    ("thread", TOptional TBoolean);
    ("mode", TOptionalStringEnum SUBAGENT_SPAWN_MODES);
    ("cleanup", TOptionalStringEnum ["delete"; "keep"]) ].

(** The property names the schema declares. *)
Definition declared_keys (modes : list string) : list string :=
  map fst (SessionsSpawnToolSchema modes).

(** ** Vocabulary for the further properties *)

(** The required [task] is there: a string with a character that is not
    whitespace. *)
Definition task_present (params : gmap string JsValue) : Prop :=
  exists t, prop params "task" = JsString t /\ all_whitespace t = false.

(** A non-empty [model] override is there. *)
Definition override_present (params : gmap string JsValue) : Prop :=
  exists m, prop params "model" = JsString m /\ m <> "".

(** How a run ended: in the exception, in a rejection with its body, or in
    the result of the spawning service. *)
Inductive Verdict : Type :=
| VThrown (e : Exn)
| VRejected (body : ErrorBody)
| VForwarded.

Definition verdict {W : Collaborators}
    (r : Outcome AgentToolResult * list Event) : Verdict :=
  match fst r with
  | Thrown e => VThrown e
  | Returned res =>
      match details res with
      | ErrorPayload body => VRejected body
      | SpawnPayload _ => VForwarded
      end
  end.

(** [k] occurs in [s] as a contiguous piece. *)
Definition occurs_in (k s : string) : Prop :=
  exists pre post, s = pre +:+ k +:+ post.

(** The finite value [x] is the integer [n]. *)
Definition denotes_integer (x : JsNum) (n : Z) : Prop :=
  match x with
  | S754_zero _ => n = 0
  | S754_finite s m e =>
      if 0 <=? e then n = signed_mantissa s m * 2 ^ e
      else signed_mantissa s m = n * 2 ^ (- e)
  | _ => False
  end.

(** The same options with another [sandboxed]. *)
Definition set_sandboxed (b : option bool) (o : ToolOpts.t) : ToolOpts.t :=
  ToolOpts.make (ToolOpts.agentSessionKey o) (ToolOpts.agentChannel o)
    (ToolOpts.agentAccountId o) (ToolOpts.agentTo o) (ToolOpts.agentThreadId o)
    (ToolOpts.agentGroupId o) (ToolOpts.agentGroupChannel o)
    (ToolOpts.agentGroupSpace o) b (ToolOpts.requesterAgentIdOverride o).

(** The options object [{}]. *)
Definition empty_opts : ToolOpts.t :=
  ToolOpts.make None None None None None None None None None None.

(** 45 as a binary64 value: 6333186975989760 * 2^-47. *)
Definition num_45 : JsNum := S754_finite false 6333186975989760 (-47).

(** The scenario with an undeclared property added. *)
Definition with_undeclared : gmap string JsValue :=
  <["priority" := JsString "high"]> scenario.

(** The scenario with a padded label and a whole number of seconds. *)
Definition with_label : gmap string JsValue :=
  <["label" := JsString "  nightly run  "]>
  (<["runTimeoutSeconds" := JsNumber num_45]> scenario).


(** ** Running [execute] *)

Ltac unfold_execute :=
  unfold run, execute, validateModelOverride, dispatch, readStringParamRequired,
    loadConfig, loadModelCatalog, spawnSubagentDirect, emit, throw,
    mbind, M_bind, mret, M_ret, current_allowed in *.

(** ** Strings and numbers *)

Lemma string_truthy_false s : string_truthy s = false <-> s = "".
Proof. destruct s; simpl; split; intros H; congruence. Qed.

Lemma string_truthy_true s : string_truthy s = true <-> s <> "".
Proof. destruct s; simpl; split; intros H; congruence. Qed.

Lemma trim_start_empty s : trim_start s = "" <-> all_whitespace s = true.
Proof.
  induction s as [|c rest IH]; simpl; [tauto|].
  destruct (is_js_whitespace c); simpl; [exact IH|].
  split; intros H; discriminate H.
Qed.

Lemma trim_start_head s :
  trim_start s = "" \/ all_whitespace (trim_start s) = false.
Proof.
  induction s as [|c rest IH]; simpl; [now left|].
  destruct (is_js_whitespace c) eqn:E; [exact IH|].
  right. simpl. now rewrite E.
Qed.

Lemma all_whitespace_rev_onto acc s :
  all_whitespace (string_rev_onto acc s) = all_whitespace acc && all_whitespace s.
Proof.
  revert acc. induction s as [|c rest IH]; intros acc; simpl.
  - now rewrite andb_true_r.
  - rewrite IH. simpl. destruct (is_js_whitespace c), (all_whitespace acc); reflexivity.
Qed.

Lemma string_rev_onto_empty acc s : string_rev_onto acc s = "" -> acc = "" /\ s = "".
Proof.
  revert acc. induction s as [|c rest IH]; intros acc H; simpl in H; [now split|].
  apply IH in H. destruct H as [H _]. discriminate H.
Qed.

Lemma js_trim_empty s : js_trim s = "" <-> all_whitespace s = true.
Proof.
  unfold js_trim, trim_end, string_rev. split.
  - intros H. apply string_rev_onto_empty in H as [_ H].
    apply trim_start_empty in H. rewrite all_whitespace_rev_onto in H. simpl in H.
    destruct (trim_start_head s) as [E|E].
    + now apply trim_start_empty.
    + rewrite E in H. discriminate H.
  - intros H. apply trim_start_empty in H. rewrite H. reflexivity.
Qed.

(** Blank is whitespace-only. *)
Lemma is_blank_all_whitespace s : is_blank s = all_whitespace s.
Proof.
  unfold is_blank. destruct (all_whitespace s) eqn:E.
  - apply js_trim_empty in E. now rewrite E.
  - destruct (string_truthy (js_trim s)) eqn:T; [reflexivity|].
    apply string_truthy_false, js_trim_empty in T. congruence.
Qed.

Lemma Set_has_In keys key : Set_has keys key = true <-> In key keys.
Proof.
  unfold Set_has. rewrite existsb_exists. split.
  - intros [x [Hx E]]. apply String.eqb_eq in E. now subst.
  - intros H. exists key. split; [exact H|apply String.eqb_refl].
Qed.

(** [Math_floor] computes the floor. *)
Lemma Math_floor_spec x : Number_isFinite x = true -> is_floor (Math_floor x) x.
Proof.
  destruct x as [s|s| |s m e]; simpl; intros H; try discriminate H; [reflexivity|].
  destruct (0 <=? e) eqn:E.
  - apply Z.leb_le in E. now apply Z.shiftl_mul_pow2.
  - apply Z.leb_gt in E.
    assert (Hd : 0 < 2 ^ (- e)) by (apply Z.pow_pos_nonneg; lia).
    rewrite <- (Z.opp_involutive e) at 1 3.
    rewrite Z.shiftl_opp_r, Z.shiftr_div_pow2 by lia.
    set (a := signed_mantissa s m). set (d := 2 ^ (- e)) in *.
    pose proof (Z.div_mod a d ltac:(lia)) as Hdm.
    pose proof (Z.mod_pos_bound a d Hd) as Hm.
    nia.
Qed.

(** The floor of a negative value is negative. *)
Lemma Math_floor_negative x : is_negative x = true -> Math_floor x < 0.
Proof.
  destruct x as [s|s| |s m e]; simpl; try discriminate.
  destruct s; [intros _|discriminate]. simpl.
  destruct (Z.leb_spec 0 e) as [E|E].
  - rewrite Z.shiftl_mul_pow2 by exact E.
    assert (0 < 2 ^ e) by (apply Z.pow_pos_nonneg; lia). nia.
  - rewrite <- (Z.opp_involutive e).
    rewrite Z.shiftl_opp_r, Z.shiftr_div_pow2 by lia.
    apply Z.div_lt_upper_bound; [apply Z.pow_pos_nonneg; lia|lia].
Qed.

Lemma normalizeTimeout_rule x : timeout_rule x (normalizeTimeout (Some x)).
Proof.
  unfold timeout_rule, normalizeTimeout, Math_max0. repeat split.
  - intros H. now rewrite H.
  - intros H. pose proof (Math_floor_negative x H) as Hn.
    destruct x as [s|s| |s m e]; try discriminate H. simpl Number_isFinite. cbv iota.
    f_equal. lia.
  - intros H. rewrite H. exists (Math_floor x). split; [now apply Math_floor_spec|reflexivity].
Qed.

Section Running.

Context {W : Collaborators}.
Variable opts : option ToolOpts.t.
Variable params : gmap string JsValue.

Lemma run_task_invalid :
  (forall t, prop params "task" = JsString t -> is_blank t = true) ->
  run (execute opts params) = (Thrown (InvalidInput "task"), []).
Proof.
  intros H. unfold_execute.
  destruct (prop params "task") eqn:E; try reflexivity.
  rewrite (H _ eq_refl). reflexivity.
Qed.

Lemma run_no_override t :
  prop params "task" = JsString t -> is_blank t = false ->
  truthy (readStringParam params "model") = false ->
  run (execute opts params) = forwarded opts params [] t.
Proof.
  intros Ht Hb Hm. unfold_execute. rewrite Ht, Hb.
  destruct (readStringParam params "model") as [m|]; [|reflexivity].
  simpl in Hm. rewrite Hm. reflexivity.
Qed.

Lemma readStringParam_string key m :
  prop params key = JsString m -> m <> "" -> readStringParam params key = Some m.
Proof.
  intros H Hm. unfold readStringParam. rewrite H.
  apply string_truthy_true in Hm. now rewrite Hm.
Qed.

Lemma readStringParam_undefined key :
  prop params key = JsUndefined -> readStringParam params key = None.
Proof. intros H. unfold readStringParam. now rewrite H. Qed.

(** A value read by [readStringParam] is never the empty string. *)
Lemma readStringParam_truthy key m :
  readStringParam params key = Some m -> string_truthy m = true.
Proof.
  unfold readStringParam. destruct (prop params key); try discriminate.
  destruct (string_truthy s) eqn:E; [|discriminate]. intros [= <-]. exact E.
Qed.

Lemma run_allow_any t m :
  prop params "task" = JsString t -> is_blank t = false ->
  readStringParam params "model" = Some m ->
  allowAny current_allowed = true ->
  run (execute opts params) = forwarded opts params [EvLoadConfig; EvLoadModelCatalog] t.
Proof.
  intros Ht Hb Hm Ha. pose proof (readStringParam_truthy _ _ Hm) as Hn.
  unfold_execute. rewrite Ht, Hb, Hm, Hn. simpl. rewrite Ha. reflexivity.
Qed.

Lemma run_parse_failure t m :
  prop params "task" = JsString t -> is_blank t = false ->
  readStringParam params "model" = Some m ->
  allowAny current_allowed = false ->
  parseModelRef m DEFAULT_PROVIDER = None ->
  run (execute opts params) = rejected (invalid_model_ref m).
Proof.
  intros Ht Hb Hm Ha Hp. pose proof (readStringParam_truthy _ _ Hm) as Hn.
  unfold_execute. rewrite Ht, Hb, Hm, Hn. simpl. rewrite Ha, Hp. reflexivity.
Qed.

Lemma run_not_allowed t m parsed :
  prop params "task" = JsString t -> is_blank t = false ->
  readStringParam params "model" = Some m ->
  allowAny current_allowed = false ->
  parseModelRef m DEFAULT_PROVIDER = Some parsed ->
  Set_has (allowedKeys current_allowed)
    (modelKey (ModelRef.provider parsed) (ModelRef.model parsed)) = false ->
  run (execute opts params) =
  rejected (model_not_allowed
    (modelKey (ModelRef.provider parsed) (ModelRef.model parsed))
    (allowedKeys current_allowed)).
Proof.
  intros Ht Hb Hm Ha Hp Hk. pose proof (readStringParam_truthy _ _ Hm) as Hn.
  unfold_execute. rewrite Ht, Hb, Hm, Hn. simpl. rewrite Ha, Hp. simpl.
  rewrite Hk. reflexivity.
Qed.

Lemma run_allowed t m parsed :
  prop params "task" = JsString t -> is_blank t = false ->
  readStringParam params "model" = Some m ->
  allowAny current_allowed = false ->
  parseModelRef m DEFAULT_PROVIDER = Some parsed ->
  Set_has (allowedKeys current_allowed)
    (modelKey (ModelRef.provider parsed) (ModelRef.model parsed)) = true ->
  run (execute opts params) = forwarded opts params [EvLoadConfig; EvLoadModelCatalog] t.
Proof.
  intros Ht Hb Hm Ha Hp Hk. pose proof (readStringParam_truthy _ _ Hm) as Hn.
  unfold_execute. rewrite Ht, Hb, Hm, Hn. simpl. rewrite Ha, Hp. simpl.
  rewrite Hk. reflexivity.
Qed.

(** Either the required read succeeds, or the run is the exception alone. *)
Lemma run_task_cases :
  (exists t, prop params "task" = JsString t /\ is_blank t = false) \/
  run (execute opts params) = (Thrown (InvalidInput "task"), []).
Proof.
  destruct (prop params "task") as [| |b|x|t|] eqn:Ht;
    try (right; apply run_task_invalid; intros ? H; rewrite Ht in H; discriminate H).
  destruct (is_blank t) eqn:Hb; [right|left; eauto].
  apply run_task_invalid. intros t' H. rewrite Ht in H. injection H as <-. exact Hb.
Qed.

Lemma run_shape : RunShape opts params (run (execute opts params)).
Proof.
  destruct (prop params "task") as [| |b|x|t|] eqn:Ht;
    try (rewrite run_task_invalid by (intros ? H; rewrite Ht in H; discriminate H);
         apply shape_thrown; intros ? H; rewrite Ht in H; discriminate H).
  destruct (is_blank t) eqn:Hb.
  { assert (Hall : forall t', prop params "task" = JsString t' -> is_blank t' = true)
      by (intros t' H; rewrite Ht in H; injection H as <-; exact Hb).
    rewrite run_task_invalid by exact Hall. now apply shape_thrown. }
  destruct (readStringParam params "model") as [m|] eqn:Hm.
  2:{ rewrite (run_no_override t) by (try rewrite Hm; auto).
      now apply shape_forwarded. }
  destruct (allowAny current_allowed) eqn:Ha.
  { rewrite (run_allow_any t m) by auto.
    apply shape_forwarded; auto. }
  destruct (parseModelRef m DEFAULT_PROVIDER) as [parsed|] eqn:Hp.
  2:{ rewrite (run_parse_failure t m) by auto. apply shape_rejected. }
  destruct (Set_has (allowedKeys current_allowed)
    (modelKey (ModelRef.provider parsed) (ModelRef.model parsed))) eqn:Hk.
  - rewrite (run_allowed t m parsed) by auto. apply shape_forwarded; auto.
  - rewrite (run_not_allowed t m parsed) by auto. apply shape_rejected.
Qed.

Lemma forwarded_inj l1 t1 l2 t2 :
  forwarded opts params l1 t1 = forwarded opts params l2 t2 -> l1 = l2 /\ t1 = t2.
Proof.
  unfold forwarded. intros H. injection H as _ H.
  apply app_inj_tail in H as [-> H]. injection H as ->. now split.
Qed.

(** The only request the service ever sees is the one built from the
    parameters, and then the run is a forwarded one. *)
Lemma spawn_event_inv req ctx :
  In (EvSpawn req ctx) (snd (run (execute opts params))) ->
  exists loads t,
    prop params "task" = JsString t /\ is_blank t = false /\
    Forall (fun ev => is_load ev = true) loads /\
    run (execute opts params) = forwarded opts params loads t /\
    req = spawnRequest_of t params /\ ctx = requesterContext_of opts.
Proof.
  destruct run_shape as [H|body|loads t Ht Hb Hl]; simpl.
  - intros [].
  - intros [H|[H|[]]]; discriminate H.
  - rewrite in_app_iff. intros [H|[H|[]]].
    + rewrite List.Forall_forall in Hl. apply Hl in H. discriminate H.
    + injection H as <- <-. exists loads, t. auto 6.
Qed.

Lemma spawn_calls_forwarded loads t :
  Forall (fun ev => is_load ev = true) loads ->
  spawn_calls (snd (forwarded opts params loads t)) = 1%nat.
Proof.
  intros Hl. unfold spawn_calls, forwarded. simpl.
  rewrite List.filter_app, length_app. simpl.
  induction Hl as [|ev loads Hev _ IH]; [reflexivity|].
  simpl. destruct ev; try discriminate Hev; exact IH.
Qed.

End Running.

(** ** What the validation depends on *)

Section Frame.

Context {W : Collaborators}.
Variable opts : option ToolOpts.t.

Lemma rejected_not_forwarded params body loads t :
  rejected body <> forwarded opts params loads t.
Proof. unfold rejected, forwarded. intros H. discriminate H. Qed.

(** Whether and after which loads a request is forwarded depends on the
    [task] and [model] parameters only. *)
Lemma run_forwarded_congr params params' loads t :
  prop params' "task" = prop params "task" ->
  readStringParam params' "model" = readStringParam params "model" ->
  run (execute opts params) = forwarded opts params loads t ->
  run (execute opts params') = forwarded opts params' loads t.
Proof.
  intros Et Em H.
  destruct (prop params "task") as [| |b|x|t0|] eqn:Ht;
    try (rewrite run_task_invalid in H
           by (intros ? H'; rewrite Ht in H'; discriminate H');
         discriminate H).
  destruct (is_blank t0) eqn:Hb.
  { rewrite run_task_invalid in H
      by (intros t' H'; rewrite Ht in H'; injection H' as <-; exact Hb).
    discriminate H. }
  destruct (readStringParam params "model") as [m|] eqn:Hm.
  2:{ rewrite (run_no_override opts params t0) in H by (try rewrite Hm; auto).
      apply forwarded_inj in H as [<- <-].
      apply run_no_override; [congruence|exact Hb|now rewrite Em]. }
  destruct (allowAny current_allowed) eqn:Ha.
  { rewrite (run_allow_any opts params t0 m) in H by auto.
    apply forwarded_inj in H as [<- <-].
    apply (run_allow_any opts params' t0 m); congruence. }
  destruct (parseModelRef m DEFAULT_PROVIDER) as [parsed|] eqn:Hp.
  2:{ rewrite (run_parse_failure opts params t0 m) in H by auto.
      now apply rejected_not_forwarded in H. }
  destruct (Set_has (allowedKeys current_allowed)
    (modelKey (ModelRef.provider parsed) (ModelRef.model parsed))) eqn:Hk.
  - rewrite (run_allowed opts params t0 m parsed) in H by auto.
    apply forwarded_inj in H as [<- <-].
    apply (run_allowed opts params' t0 m parsed); congruence.
  - rewrite (run_not_allowed opts params t0 m parsed) in H by auto.
    now apply rejected_not_forwarded in H.
Qed.

Lemma prop_insert_eq params key v : prop (<[key := v]> params) key = v.
Proof. unfold prop. now rewrite lookup_insert_eq. Qed.

Lemma prop_insert_ne params key key' v :
  key <> key' -> prop (<[key := v]> params) key' = prop params key'.
Proof. intros H. unfold prop. now rewrite lookup_insert_ne. Qed.

End Frame.

(** ** The properties of [execute] *)

Section Properties.

Context {W : Collaborators}.
Variable opts : option ToolOpts.t.
Variable params : gmap string JsValue.

(** C1, as amended.  When [task] is missing, empty or whitespace-only,
    [execute] does not return a result: the [InvalidInput] failure of the
    required read, which names the field [task], leaves [execute] as an
    exception, before any load and without a call to the spawning
    service. *)
Theorem C1_blank_task_throws :
  task_missing_or_blank params = true ->
  run (execute opts params) = (Thrown (InvalidInput "task"), []) /\
  load_calls (snd (run (execute opts params))) = 0%nat /\
  spawn_calls (snd (run (execute opts params))) = 0%nat.
Proof.
  intros H.
  assert (E : run (execute opts params) = (Thrown (InvalidInput "task"), [])).
  { apply run_task_invalid. intros t Ht. unfold task_missing_or_blank in H.
    rewrite Ht in H. now rewrite is_blank_all_whitespace. }
  rewrite E. now repeat split.
Qed.

(** C2.  Whenever a request is forwarded, its [runTimeoutSeconds] follows
    the rule of the spec (non-finite: absent; negative: 0; finite: floored
    and clamped below by 0) applied to the number in [runTimeoutSeconds],
    whatever [timeoutSeconds] holds, and applied to the number in
    [timeoutSeconds] only when [runTimeoutSeconds] holds no number. *)
Theorem C2_timeout_normalised req ctx :
  In (EvSpawn req ctx) (snd (run (execute opts params))) ->
  (forall x, prop params "runTimeoutSeconds" = JsNumber x ->
     timeout_rule x (runTimeoutSeconds req)) /\
  (forall x y, prop params "runTimeoutSeconds" = JsNumber x ->
     prop params "timeoutSeconds" = JsNumber y ->
     runTimeoutSeconds req = normalizeTimeout (Some x)) /\
  (forall y, (forall x, prop params "runTimeoutSeconds" <> JsNumber x) ->
     prop params "timeoutSeconds" = JsNumber y ->
     timeout_rule y (runTimeoutSeconds req)).
Proof.
  intros H. apply spawn_event_inv in H as (loads & t & _ & _ & _ & _ & -> & _).
  simpl. unfold runTimeoutSeconds_of, timeoutSecondsCandidate. split; [|split].
  - intros x Hx. rewrite Hx. apply normalizeTimeout_rule.
  - intros x y Hx _. now rewrite Hx.
  - intros y Hx Hy. rewrite Hy.
    destruct (prop params "runTimeoutSeconds") as [| |b|x0|s|];
      try apply normalizeTimeout_rule.
    now destruct (Hx x0).
Qed.

(** C3.  With a restrictive allowlist and a non-empty [model] override
    that does not parse, the spawning service is never called, and, the
    required [task] being there, [execute] returns
    [{status: "error", error: "invalid model ref: <override>"}]. *)
Theorem C3_invalid_model_ref m :
  prop params "model" = JsString m -> m <> "" ->
  allowAny current_allowed = false ->
  parseModelRef m DEFAULT_PROVIDER = None ->
  spawn_calls (snd (run (execute opts params))) = 0%nat /\
  (forall t, prop params "task" = JsString t -> all_whitespace t = false ->
     run (execute opts params) =
       (Returned (jsonResult (ErrorPayload
          {| status := "error"; error := "invalid model ref: " +:+ m |})),
        [EvLoadConfig; EvLoadModelCatalog])).
Proof.
  intros Hm Hn Ha Hp.
  pose proof (readStringParam_string params "model" m Hm Hn) as Hr.
  split.
  - destruct (run_task_cases opts params) as [(t & Ht & Hb)|E].
    + now rewrite (run_parse_failure opts params t m).
    + now rewrite E.
  - intros t Ht Hb. rewrite <- is_blank_all_whitespace in Hb.
    now rewrite (run_parse_failure opts params t m).
Qed.

(** C4.  With a restrictive allowlist and a non-empty [model] override that
    parses to a key outside the allowed set, the spawning service is never
    called, and, the required [task] being there, [execute] returns
    [{status: "error", error: "model not allowed: <key>. Allowed models:
    <keys>"}], the keys joined by a comma and a space in iteration order. *)
Theorem C4_model_not_allowed m parsed :
  prop params "model" = JsString m -> m <> "" ->
  allowAny current_allowed = false ->
  parseModelRef m DEFAULT_PROVIDER = Some parsed ->
  ~ In (modelKey (ModelRef.provider parsed) (ModelRef.model parsed))
       (allowedKeys current_allowed) ->
  spawn_calls (snd (run (execute opts params))) = 0%nat /\
  (forall t, prop params "task" = JsString t -> all_whitespace t = false ->
     run (execute opts params) =
       (Returned (jsonResult (ErrorPayload
          {| status := "error";
             error := "model not allowed: "
                      +:+ modelKey (ModelRef.provider parsed) (ModelRef.model parsed)
                      +:+ ". Allowed models: "
                      +:+ String.concat ", " (allowedKeys current_allowed) |})),
        [EvLoadConfig; EvLoadModelCatalog])).
Proof.
  intros Hm Hn Ha Hp Hk.
  pose proof (readStringParam_string params "model" m Hm Hn) as Hr.
  assert (Hs : Set_has (allowedKeys current_allowed)
                 (modelKey (ModelRef.provider parsed) (ModelRef.model parsed)) = false)
    by (apply not_true_is_false; now rewrite Set_has_In).
  split.
  - destruct (run_task_cases opts params) as [(t & Ht & Hb)|E].
    + now rewrite (run_not_allowed opts params t m parsed).
    + now rewrite E.
  - intros t Ht Hb. rewrite <- is_blank_all_whitespace in Hb.
    now rewrite (run_not_allowed opts params t m parsed).
Qed.

(** C5.  With no [model] field, [execute] loads neither the configuration
    nor the catalog, and, the required [task] being there, calls the
    spawning service with a request whose [model] is absent. *)
Theorem C5_no_model_no_load :
  prop params "model" = JsUndefined ->
  load_calls (snd (run (execute opts params))) = 0%nat /\
  (forall t, prop params "task" = JsString t -> all_whitespace t = false ->
     run (execute opts params) =
       (Returned (jsonResult (SpawnPayload
          (spawn_service (spawnRequest_of t params) (requesterContext_of opts)))),
        [EvSpawn (spawnRequest_of t params) (requesterContext_of opts)]) /\
     model (spawnRequest_of t params) = None).
Proof.
  intros Hm.
  pose proof (readStringParam_undefined params "model" Hm) as Hr.
  assert (Hrun : forall t, prop params "task" = JsString t -> is_blank t = false ->
                   run (execute opts params) = forwarded opts params [] t)
    by (intros t Ht Hb; apply run_no_override; try rewrite Hr; auto).
  split.
  - destruct (run_task_cases opts params) as [(t & Ht & Hb)|E].
    + now rewrite (Hrun t).
    + now rewrite E.
  - intros t Ht Hb. rewrite <- is_blank_all_whitespace in Hb.
    rewrite (Hrun t) by auto. simpl. now rewrite Hr.
Qed.

(** C6.  A forwarded request carries [mode = s] exactly when the raw
    [mode] is the string [s] and [s] is "run" or "session"; and putting any
    other value in [mode] does not reject a request that is otherwise
    forwarded: it is still forwarded, with [mode] absent. *)
Theorem C6_mode_lenient req ctx :
  In (EvSpawn req ctx) (snd (run (execute opts params))) ->
  (forall s, mode req = Some s <->
     prop params "mode" = JsString s /\ (s = "run" \/ s = "session")) /\
  (forall v, v <> JsString "run" -> v <> JsString "session" ->
     exists req',
       In (EvSpawn req' ctx) (snd (run (execute opts (<["mode" := v]> params)))) /\
       mode req' = None /\
       spawn_calls (snd (run (execute opts (<["mode" := v]> params)))) = 1%nat).
Proof.
  intros H. apply spawn_event_inv in H as (loads & t & Ht & Hb & Hl & Hrun & -> & ->).
  split.
  - intros s. simpl. unfold mode_of.
    destruct (prop params "mode") as [| |b|x|s0|];
      try (split; [discriminate|intros [E _]; discriminate E]).
    destruct (String.eqb_spec s0 "run") as [->|Hr]; simpl.
    { split; [intros [= <-]; auto|intros [[= ->] _]; reflexivity]. }
    destruct (String.eqb_spec s0 "session") as [->|Hs]; simpl.
    { split; [intros [= <-]; auto|intros [[= ->] _]; reflexivity]. }
    split; [discriminate|].
    intros [[= ->] [->| ->]]; congruence.
  - intros v Hr Hs.
    assert (Hrun' : run (execute opts (<["mode" := v]> params)) =
                    forwarded opts (<["mode" := v]> params) loads t).
    { apply (run_forwarded_congr opts params); [| |exact Hrun].
      - now apply prop_insert_ne.
      - unfold readStringParam. now rewrite prop_insert_ne. }
    exists (spawnRequest_of t (<["mode" := v]> params)). rewrite Hrun'. repeat split.
    + simpl. apply in_or_app. right. now left.
    + simpl. unfold mode_of. rewrite prop_insert_eq.
      destruct v as [| |b|x|s0|]; try reflexivity.
      destruct (String.eqb_spec s0 "run") as [->|_]; [congruence|].
      destruct (String.eqb_spec s0 "session") as [->|_]; [congruence|reflexivity].
    + now apply spawn_calls_forwarded.
Qed.

(** C7.  A forwarded request carries [cleanup = "delete"] exactly when the
    raw [cleanup] is the string "delete"; for every other raw value, an
    absent field included, it carries "keep". *)
Theorem C7_cleanup_default req ctx :
  In (EvSpawn req ctx) (snd (run (execute opts params))) ->
  (cleanup req = "delete" <-> prop params "cleanup" = JsString "delete") /\
  (prop params "cleanup" <> JsString "delete" -> cleanup req = "keep").
Proof.
  intros H. apply spawn_event_inv in H as (loads & t & _ & _ & _ & _ & -> & _).
  simpl. unfold cleanup_of.
  destruct (prop params "cleanup") as [| |b|x|s|];
    try (split; [split; discriminate|reflexivity]).
  destruct (String.eqb_spec s "keep") as [->|Hk]; simpl.
  { split; [split; discriminate|reflexivity]. }
  destruct (String.eqb_spec s "delete") as [->|Hd]; simpl.
  { split; [split; reflexivity|congruence]. }
  split; [split; [discriminate|congruence]|reflexivity].
Qed.

(** C8.  With a present [task], a non-empty [model] string and an
    allowed-model set that allows any model, [execute] calls the spawning
    service with that string as [model], whatever the parser, the key
    function and the allowed keys are. *)
Theorem C8_allow_any_forwards t m :
  prop params "task" = JsString t -> all_whitespace t = false ->
  prop params "model" = JsString m -> m <> "" ->
  allowAny current_allowed = true ->
  run (execute opts params) =
    (Returned (jsonResult (SpawnPayload
       (spawn_service (spawnRequest_of t params) (requesterContext_of opts)))),
     [EvLoadConfig; EvLoadModelCatalog;
      EvSpawn (spawnRequest_of t params) (requesterContext_of opts)]) /\
  model (spawnRequest_of t params) = Some m /\
  spawn_calls (snd (run (execute opts params))) = 1%nat.
Proof.
  intros Ht Hb Hm Hn Ha. rewrite <- is_blank_all_whitespace in Hb.
  pose proof (readStringParam_string params "model" m Hm Hn) as Hr.
  rewrite (run_allow_any opts params t m) by auto.
  simpl. now rewrite Hr.
Qed.

(** C9.  On the scenario input [{task: "summarize doc", mode: "session",
    cleanup: "delete", runTimeoutSeconds: 45.9}], under any model policy
    (an allow-any one in particular), the spawning service is called
    exactly once, with task "summarize doc", mode "session", cleanup
    "delete", runTimeoutSeconds 45, thread false and
    expectsCompletionMessage true, and what it returns is the result. *)
Theorem C9_end_to_end :
  run (execute opts scenario) =
    (Returned (jsonResult (SpawnPayload
       (spawn_service scenario_request (requesterContext_of opts)))),
     [EvSpawn scenario_request (requesterContext_of opts)]) /\
  spawn_calls (snd (run (execute opts scenario))) = 1%nat.
Proof.
  rewrite (run_no_override opts scenario "summarize doc") by reflexivity.
  unfold forwarded.
  replace (spawnRequest_of "summarize doc" scenario) with scenario_request
    by (vm_compute; reflexivity).
  now split.
Qed.

(** C10.  With a present [task], a restrictive allowlist and a [model]
    override whose key is in the allowed set, the request is forwarded with
    the override string itself as [model], not with the key. *)
Theorem C10_forwards_raw_override t m parsed :
  prop params "task" = JsString t -> all_whitespace t = false ->
  prop params "model" = JsString m -> m <> "" ->
  allowAny current_allowed = false ->
  parseModelRef m DEFAULT_PROVIDER = Some parsed ->
  In (modelKey (ModelRef.provider parsed) (ModelRef.model parsed))
     (allowedKeys current_allowed) ->
  run (execute opts params) =
    (Returned (jsonResult (SpawnPayload
       (spawn_service (spawnRequest_of t params) (requesterContext_of opts)))),
     [EvLoadConfig; EvLoadModelCatalog;
      EvSpawn (spawnRequest_of t params) (requesterContext_of opts)]) /\
  model (spawnRequest_of t params) = Some m /\
  (m <> modelKey (ModelRef.provider parsed) (ModelRef.model parsed) ->
   model (spawnRequest_of t params) <>
   Some (modelKey (ModelRef.provider parsed) (ModelRef.model parsed))).
Proof.
  intros Ht Hb Hm Hn Ha Hp Hk. rewrite <- is_blank_all_whitespace in Hb.
  pose proof (readStringParam_string params "model" m Hm Hn) as Hr.
  rewrite (run_allowed opts params t m parsed)
    by (auto; now apply Set_has_In).
  simpl. rewrite Hr. repeat split. congruence.
Qed.

End Properties.

(** ** The properties at concrete inputs *)

Lemma C1_blank_task_throws_witness :
  task_missing_or_blank with_blank_task = true /\
  run (execute (W := Demo.world Demo.restrictive) no_opts with_blank_task) =
    (Thrown (InvalidInput "task"), []).
Proof.
  split; [reflexivity|].
  apply (C1_blank_task_throws (W := Demo.world Demo.restrictive) no_opts with_blank_task).
  reflexivity.
Defined.

(** C1, as the spec states it, fails on the empty parameter object: the run
    ends in the exception, so no result, and no [{status: "error"}] result
    in particular, is returned. *)
Lemma C1_counterexample :
  task_missing_or_blank (∅ : gmap string JsValue) = true /\
  fst (run (execute (W := Demo.world Demo.permissive) no_opts ∅)) =
    Thrown (InvalidInput "task") /\
  ~ (exists r body,
       fst (run (execute (W := Demo.world Demo.permissive) no_opts ∅)) = Returned r /\
       details r = ErrorPayload body /\ status body = "error").
Proof.
  split; [reflexivity|]. split; [reflexivity|].
  intros (r & body & H & _). discriminate H.
Qed.

Lemma C2_timeout_normalised_witness :
  In (EvSpawn scenario_request (requesterContext_of no_opts))
     (snd (run (execute (W := Demo.world Demo.permissive) no_opts with_both_timeouts))) /\
  timeout_rule num_45_9 (Some 45) /\
  runTimeoutSeconds scenario_request = normalizeTimeout (Some num_45_9).
Proof.
  assert (H : In (EvSpawn scenario_request (requesterContext_of no_opts))
     (snd (run (execute (W := Demo.world Demo.permissive) no_opts with_both_timeouts))))
    by (vm_compute; left; reflexivity).
  pose proof (C2_timeout_normalised (W := Demo.world Demo.permissive)
                no_opts with_both_timeouts _ _ H) as (H1 & H2 & _).
  split; [exact H|]. split.
  - exact (H1 num_45_9 eq_refl).
  - exact (H2 num_45_9 (S754_finite false 5 0) eq_refl eq_refl).
Defined.

Lemma C3_invalid_model_ref_witness :
  spawn_calls (snd (run (execute (W := Demo.world Demo.restrictive) no_opts
                           (with_model "gpt unknown")))) = 0%nat /\
  run (execute (W := Demo.world Demo.restrictive) no_opts (with_model "gpt unknown")) =
    (Returned (jsonResult (ErrorPayload
       {| status := "error"; error := "invalid model ref: gpt unknown" |})),
     [EvLoadConfig; EvLoadModelCatalog]).
Proof.
  destruct (C3_invalid_model_ref (W := Demo.world Demo.restrictive) no_opts
              (with_model "gpt unknown") "gpt unknown") as [H1 H2];
    try reflexivity.
  - discriminate.
  - split; [exact H1|]. apply (H2 "summarize doc"); reflexivity.
Defined.

Lemma C4_model_not_allowed_witness :
  spawn_calls (snd (run (execute (W := Demo.world Demo.restrictive) no_opts
                           (with_model "gpt-unknown")))) = 0%nat /\
  run (execute (W := Demo.world Demo.restrictive) no_opts (with_model "gpt-unknown")) =
    (Returned (jsonResult (ErrorPayload
       {| status := "error";
          error := "model not allowed: anthropic/gpt-unknown. Allowed models: anthropic/claude-sonnet, openai/gpt-4o" |})),
     [EvLoadConfig; EvLoadModelCatalog]).
Proof.
  destruct (C4_model_not_allowed (W := Demo.world Demo.restrictive) no_opts
              (with_model "gpt-unknown") "gpt-unknown"
              (ModelRef.make "anthropic" "gpt-unknown")) as [H1 H2];
    try reflexivity.
  - discriminate.
  - simpl. intros [H|[H|[]]]; discriminate H.
  - split; [exact H1|]. apply (H2 "summarize doc"); reflexivity.
Defined.

Lemma C5_no_model_no_load_witness :
  prop scenario "model" = JsUndefined /\
  load_calls (snd (run (execute (W := Demo.world Demo.restrictive) no_opts scenario))) = 0%nat /\
  run (execute (W := Demo.world Demo.restrictive) no_opts scenario) =
    (Returned (jsonResult (SpawnPayload (W := Demo.world Demo.restrictive)
                             "accepted: summarize doc")),
     [EvSpawn scenario_request (requesterContext_of no_opts)]) /\
  model scenario_request = None.
Proof.
  split; [reflexivity|].
  destruct (C5_no_model_no_load (W := Demo.world Demo.restrictive) no_opts scenario)
    as [H1 H2]; [reflexivity|].
  split; [exact H1|]. apply (H2 "summarize doc"); reflexivity.
Defined.

Lemma C6_mode_lenient_witness :
  exists req',
    In (EvSpawn req' (requesterContext_of no_opts))
       (snd (run (execute (W := Demo.world Demo.permissive) no_opts
                    (<["mode" := JsString "loop"]> scenario)))) /\
    mode req' = None /\
    spawn_calls (snd (run (execute (W := Demo.world Demo.permissive) no_opts
                             (<["mode" := JsString "loop"]> scenario)))) = 1%nat.
Proof.
  assert (H : In (EvSpawn scenario_request (requesterContext_of no_opts))
     (snd (run (execute (W := Demo.world Demo.permissive) no_opts scenario))))
    by (vm_compute; left; reflexivity).
  apply (proj2 (C6_mode_lenient (W := Demo.world Demo.permissive)
                  no_opts scenario _ _ H) (JsString "loop")); discriminate.
Defined.

Lemma C7_cleanup_default_witness :
  In (EvSpawn scenario_request (requesterContext_of no_opts))
     (snd (run (execute (W := Demo.world Demo.permissive) no_opts scenario))) /\
  (cleanup scenario_request = "delete" <-> prop scenario "cleanup" = JsString "delete").
Proof.
  assert (H : In (EvSpawn scenario_request (requesterContext_of no_opts))
     (snd (run (execute (W := Demo.world Demo.permissive) no_opts scenario))))
    by (vm_compute; left; reflexivity).
  split; [exact H|].
  exact (proj1 (C7_cleanup_default (W := Demo.world Demo.permissive)
                  no_opts scenario _ _ H)).
Defined.

Lemma C8_allow_any_forwards_witness :
  model (spawnRequest_of "summarize doc" (with_model "not a model ref")) =
    Some "not a model ref" /\
  spawn_calls (snd (run (execute (W := Demo.world Demo.permissive) no_opts
                           (with_model "not a model ref")))) = 1%nat.
Proof.
  apply (C8_allow_any_forwards (W := Demo.world Demo.permissive) no_opts
           (with_model "not a model ref") "summarize doc" "not a model ref");
    try reflexivity.
  discriminate.
Defined.

Lemma C10_forwards_raw_override_witness :
  model (spawnRequest_of "summarize doc" (with_model "claude-sonnet")) =
    Some "claude-sonnet" /\
  model (spawnRequest_of "summarize doc" (with_model "claude-sonnet")) <>
    Some "anthropic/claude-sonnet".
Proof.
  pose proof (C10_forwards_raw_override (W := Demo.world Demo.restrictive) no_opts
           (with_model "claude-sonnet") "summarize doc" "claude-sonnet"
           (ModelRef.make "anthropic" "claude-sonnet")
           eq_refl eq_refl eq_refl) as H.
  destruct H as (_ & H1 & H2).
  - discriminate.
  - reflexivity.
  - reflexivity.
  - simpl. left. reflexivity.
  - split; [exact H1|]. apply H2. discriminate.
Defined.

(** ** Further properties: the protocol of a run *)

Section Protocol.

Context {W : Collaborators}.
Variable opts : option ToolOpts.t.
Variable params : gmap string JsValue.

Lemma task_present_blank t :
  prop params "task" = JsString t -> is_blank t = false -> task_present params.
Proof. intros Ht Hb. exists t. now rewrite <- is_blank_all_whitespace. Qed.

Lemma task_absent_run :
  ~ task_present params ->
  run (execute opts params) = (Thrown (InvalidInput "task"), []).
Proof.
  intros H. destruct (run_task_cases opts params) as [(t & Ht & Hb)|E]; [|exact E].
  destruct H. now apply (task_present_blank t).
Qed.

Lemma override_read m :
  readStringParam params "model" = Some m -> override_present params.
Proof.
  intros H. pose proof (readStringParam_truthy _ _ _ H) as Hn.
  unfold readStringParam in H. destruct (prop params "model") eqn:E; try discriminate.
  rewrite string_truthy_true in Hn.
  destruct (string_truthy s); [|discriminate]. injection H as ->.
  exists m. now split.
Qed.

Lemma override_absent_read :
  ~ override_present params -> readStringParam params "model" = None.
Proof.
  intros H. destruct (readStringParam params "model") as [m|] eqn:E; [|reflexivity].
  destruct H. now apply (override_read m).
Qed.

(** The three kinds of run, with the condition on the parameters that goes
    with each. *)
Lemma run_trichotomy :
  (~ task_present params /\
   run (execute opts params) = (Thrown (InvalidInput "task"), [])) \/
  (task_present params /\ override_present params /\
   exists body, status body = "error" /\ run (execute opts params) = rejected body) \/
  (task_present params /\
   exists loads t,
     (loads = [] /\ ~ override_present params \/
      loads = [EvLoadConfig; EvLoadModelCatalog] /\ override_present params) /\
     run (execute opts params) = forwarded opts params loads t).
Proof.
  destruct (prop params "task") as [| |b|x|t|] eqn:Ht;
    try (left; split;
         [intros (t' & Ht' & _); rewrite Ht in Ht'; discriminate Ht'
         |apply run_task_invalid; intros t' Ht'; rewrite Ht in Ht'; discriminate Ht']).
  destruct (is_blank t) eqn:Hb.
  { left. split.
    - intros (t' & Ht' & Hb'). rewrite Ht in Ht'. injection Ht' as <-.
      rewrite <- is_blank_all_whitespace in Hb'. congruence.
    - apply run_task_invalid. intros t' Ht'. rewrite Ht in Ht'.
      injection Ht' as <-. exact Hb. }
  pose proof (task_present_blank t Ht Hb) as Hp.
  right.
  destruct (readStringParam params "model") as [m|] eqn:Hm.
  2:{ right. split; [exact Hp|]. exists [], t. split.
      - left. split; [reflexivity|]. intros (m & Em & En).
        rewrite (readStringParam_string params "model" m Em En) in Hm. discriminate Hm.
      - apply run_no_override; auto. now rewrite Hm. }
  pose proof (override_read m Hm) as Ho.
  destruct (allowAny current_allowed) eqn:Ha.
  { right. split; [exact Hp|].
    exists [EvLoadConfig; EvLoadModelCatalog], t.
    split; [right; now split|]. now apply (run_allow_any opts params t m). }
  destruct (parseModelRef m DEFAULT_PROVIDER) as [parsed|] eqn:Hparse.
  2:{ left. repeat split; auto. exists (invalid_model_ref m). split; [reflexivity|].
      now apply (run_parse_failure opts params t m). }
  destruct (Set_has (allowedKeys current_allowed)
    (modelKey (ModelRef.provider parsed) (ModelRef.model parsed))) eqn:Hk.
  - right. split; [exact Hp|].
    exists [EvLoadConfig; EvLoadModelCatalog], t.
    split; [right; now split|]. now apply (run_allowed opts params t m parsed).
  - left. repeat split; auto.
    exists (model_not_allowed
              (modelKey (ModelRef.provider parsed) (ModelRef.model parsed))
              (allowedKeys current_allowed)).
    split; [reflexivity|]. now apply (run_not_allowed opts params t m parsed).
Qed.


(** Every run of [execute] is one of three.  The required read throws and
    nothing else happens.  Or both loads happen, configuration first, and a
    [{status: "error"}] body is returned without a call.  Or the spawning
    service is called once, as the last event, after both loads or none,
    and the result is what the service returned for the request that was
    sent. *)
Theorem execute_protocol :
  (~ task_present params /\
   run (execute opts params) = (Thrown (InvalidInput "task"), [])) \/
  (task_present params /\ override_present params /\
   exists body, status body = "error" /\
     run (execute opts params) =
       (Returned (jsonResult (ErrorPayload body)), [EvLoadConfig; EvLoadModelCatalog])) \/
  (task_present params /\
   exists loads req,
     (loads = [] /\ ~ override_present params \/
      loads = [EvLoadConfig; EvLoadModelCatalog] /\ override_present params) /\
     run (execute opts params) =
       (Returned (jsonResult (SpawnPayload (spawn_service req (requesterContext_of opts)))),
        (loads ++ [EvSpawn req (requesterContext_of opts)])%list)).
Proof.
  destruct run_trichotomy
    as [[Hn E]|[(Hp & Ho & body & Hs & E)|(Hp & loads & t & Hl & E)]].
  - left. now split.
  - right. left. repeat split; auto. exists body. now split.
  - right. right. split; [exact Hp|].
    exists loads, (spawnRequest_of t params). now split.
Qed.

End Protocol.

(** ** Further properties: the allowlist and the loads *)

Section Allowlist.

Context {W : Collaborators}.
Variable opts : option ToolOpts.t.
Variable params : gmap string JsValue.

(** No request that carries a model reaches the spawning service unless the
    policy allows any model or the model parses to an allowed key; and then
    both loads came first. *)
Theorem allowlist_safety req ctx m :
  In (EvSpawn req ctx) (snd (run (execute opts params))) ->
  model req = Some m ->
  (allowAny current_allowed = true \/
   exists parsed, parseModelRef m DEFAULT_PROVIDER = Some parsed /\
     In (modelKey (ModelRef.provider parsed) (ModelRef.model parsed))
        (allowedKeys current_allowed)) /\
  snd (run (execute opts params)) = [EvLoadConfig; EvLoadModelCatalog; EvSpawn req ctx].
Proof.
  intros H Hm.
  apply spawn_event_inv in H as (loads & t & Ht & Hb & _ & Hrun & -> & ->).
  simpl in Hm.
  destruct (allowAny current_allowed) eqn:Ha.
  { split; [now left|]. now rewrite (run_allow_any opts params t m). }
  destruct (parseModelRef m DEFAULT_PROVIDER) as [parsed|] eqn:Hp.
  2:{ rewrite (run_parse_failure opts params t m) in Hrun by auto.
      now apply rejected_not_forwarded in Hrun. }
  destruct (Set_has (allowedKeys current_allowed)
    (modelKey (ModelRef.provider parsed) (ModelRef.model parsed))) eqn:Hk.
  - split.
    + right. exists parsed. split; [reflexivity|]. now apply Set_has_In.
    + now rewrite (run_allowed opts params t m parsed).
  - rewrite (run_not_allowed opts params t m parsed) in Hrun by auto.
    now apply rejected_not_forwarded in Hrun.
Qed.

(** The configuration and the catalog are loaded exactly when the required
    [task] and a non-empty [model] override are there, under an allow-any
    policy too; otherwise neither is loaded.  Never is one loaded without
    the other. *)
Theorem loads_iff_override :
  (task_present params /\ override_present params ->
   load_calls (snd (run (execute opts params))) = 2%nat /\
   In EvLoadConfig (snd (run (execute opts params))) /\
   In EvLoadModelCatalog (snd (run (execute opts params)))) /\
  (~ (task_present params /\ override_present params) ->
   load_calls (snd (run (execute opts params))) = 0%nat).
Proof.
  destruct (run_trichotomy opts params)
    as [[Hn E]|[(Hp & Ho & body & _ & E)|(Hp & loads & t & Hl & E)]];
    rewrite E; simpl.
  - split; [intros [Hp _]; contradiction|reflexivity].
  - split; [intros _; cbv; auto|intros Hno; destruct Hno; now split].
  - destruct Hl as [[-> Hno]|[-> Ho]]; simpl.
    + split; [intros [_ Ho]; contradiction|reflexivity].
    + split; [intros _; cbv; auto|intros Hno; destruct Hno; now split].
Qed.

End Allowlist.

(** ** Further properties: what a run depends on *)

Section Dependence.

Context {W : Collaborators}.
Variable opts : option ToolOpts.t.

Lemma readStringParam_congr params params' key :
  prop params' key = prop params key ->
  readStringParam params' key = readStringParam params key.
Proof. intros H. unfold readStringParam. now rewrite H. Qed.

(** Whether a run throws, rejects (and with which body) or forwards, and
    which loads it makes, depends on the [task] and [model] parameters
    only: no value of any other parameter, of a wrong type or not, turns a
    forwarded request into a rejected one or back. *)
Theorem verdict_frame params params' :
  prop params' "task" = prop params "task" ->
  prop params' "model" = prop params "model" ->
  verdict (run (execute opts params')) = verdict (run (execute opts params)) /\
  List.filter is_load (snd (run (execute opts params'))) =
    List.filter is_load (snd (run (execute opts params))) /\
  spawn_calls (snd (run (execute opts params'))) =
    spawn_calls (snd (run (execute opts params))).
Proof.
  intros Et Em. pose proof (readStringParam_congr params params' "model" Em) as Er.
  destruct (prop params "task") as [| |b|x|t|] eqn:Ht;
    try (rewrite (run_task_invalid opts params)
           by (intros t' Ht'; rewrite Ht in Ht'; discriminate Ht');
         rewrite (run_task_invalid opts params')
           by (intros t' Ht'; rewrite Et in Ht'; discriminate Ht');
         now repeat split).
  destruct (is_blank t) eqn:Hb.
  { rewrite (run_task_invalid opts params)
      by (intros t' Ht'; rewrite Ht in Ht'; injection Ht' as <-; exact Hb).
    rewrite (run_task_invalid opts params')
      by (intros t' Ht'; rewrite Et in Ht'; injection Ht' as <-; exact Hb).
    now repeat split. }
  destruct (readStringParam params "model") as [m|] eqn:Hm.
  2:{ rewrite (run_no_override opts params t) by (try rewrite Hm; auto).
      rewrite (run_no_override opts params' t) by (try rewrite Er; auto).
      now repeat split. }
  destruct (allowAny current_allowed) eqn:Ha.
  { rewrite (run_allow_any opts params t m) by auto.
    rewrite (run_allow_any opts params' t m) by auto.
    now repeat split. }
  destruct (parseModelRef m DEFAULT_PROVIDER) as [parsed|] eqn:Hp.
  2:{ rewrite (run_parse_failure opts params t m) by auto.
      rewrite (run_parse_failure opts params' t m) by auto.
      now repeat split. }
  destruct (Set_has (allowedKeys current_allowed)
    (modelKey (ModelRef.provider parsed) (ModelRef.model parsed))) eqn:Hk.
  - rewrite (run_allowed opts params t m parsed) by auto.
    rewrite (run_allowed opts params' t m parsed) by auto.
    now repeat split.
  - rewrite (run_not_allowed opts params t m parsed) by auto.
    rewrite (run_not_allowed opts params' t m parsed) by auto.
    now repeat split.
Qed.

Lemma spawnRequest_of_congr params params' t modes :
  (forall k, In k (declared_keys modes) -> prop params' k = prop params k) ->
  spawnRequest_of t params' = spawnRequest_of t params.
Proof.
  intros H.
  assert (E : forall k, In k (declared_keys []) -> prop params' k = prop params k)
    by (intros k Hk; apply H; exact Hk).
  unfold spawnRequest_of, label_of, readStringParam, runTimeoutSeconds_of,
    timeoutSecondsCandidate, thread_of, mode_of, cleanup_of.
  rewrite (E "label"), (E "agentId"), (E "model"), (E "thinking"),
    (E "runTimeoutSeconds"), (E "timeoutSeconds"), (E "thread"), (E "mode"),
    (E "cleanup") by (simpl; tauto).
  reflexivity.
Qed.

(** [execute] reads the declared parameters and nothing else: two parameter
    objects that agree on the ten declared names give the same run, the
    same events with the same request and the same result. *)
Theorem declared_keys_frame params params' modes :
  (forall k, In k (declared_keys modes) -> prop params' k = prop params k) ->
  run (execute opts params') = run (execute opts params).
Proof.
  intros H.
  assert (Et : prop params' "task" = prop params "task") by (apply H; simpl; tauto).
  assert (Em : prop params' "model" = prop params "model") by (apply H; simpl; tauto).
  pose proof (readStringParam_congr params params' "model" Em) as Er.
  unfold_execute. rewrite Et, Er.
  destruct (prop params "task") as [| |b|x|t|]; try reflexivity.
  destruct (is_blank t); [reflexivity|]. simpl.
  now rewrite (spawnRequest_of_congr params params' t modes H).
Qed.

(** The tool's [sandboxed] option is never read, and an absent options
    object behaves as the empty one. *)
Theorem sandboxed_ignored params o b :
  run (execute (Some (set_sandboxed b o)) params) = run (execute (Some o) params) /\
  run (execute None params) = run (execute (Some empty_opts) params).
Proof. split; reflexivity. Qed.

End Dependence.

(** ** Further properties: the label *)

Lemma app_cons c a b : String c a +:+ b = String c (a +:+ b).
Proof. reflexivity. Qed.

Lemma app_empty_r s : s +:+ "" = s.
Proof. induction s as [|c s IH]; [reflexivity|]. rewrite app_cons. now rewrite IH. Qed.

Lemma app_assoc_string a b c : (a +:+ b) +:+ c = a +:+ (b +:+ c).
Proof.
  induction a as [|x a IH]; [reflexivity|]. rewrite !app_cons. now rewrite IH.
Qed.











Section Fields.

Context {W : Collaborators}.
Variable opts : option ToolOpts.t.
Variable params : gmap string JsValue.


(** [thread] is forwarded as true for the boolean [true] alone: the string
    "true", the number 1 and every other value give false. *)
Theorem thread_strict req ctx :
  In (EvSpawn req ctx) (snd (run (execute opts params))) ->
  (thread req = true <-> prop params "thread" = JsBoolean true).
Proof.
  intros H. apply spawn_event_inv in H as (loads & t & _ & _ & _ & _ & -> & _).
  simpl. unfold thread_of.
  destruct (prop params "thread") as [| |[]|x|s|]; split; congruence.
Qed.

(** What the spawning service can rely on in every request it is given:
    completion messages are expected, [cleanup] is "keep" or "delete",
    [mode] is absent, "run" or "session", a timeout is never negative, and
    a label is never the empty string. *)
Theorem forwarded_request_invariant req ctx :
  In (EvSpawn req ctx) (snd (run (execute opts params))) ->
  expectsCompletionMessage req = true /\
  (cleanup req = "keep" \/ cleanup req = "delete") /\
  (mode req = None \/ mode req = Some "run" \/ mode req = Some "session") /\
  (forall n, runTimeoutSeconds req = Some n -> 0 <= n) /\
  label req <> Some "" /\
  ctx = requesterContext_of opts.
Proof.
  intros H. apply spawn_event_inv in H as (loads & t & _ & _ & _ & _ & -> & ->).
  simpl. repeat split.
  - unfold cleanup_of. destruct (prop params "cleanup") as [| |b|x|s|]; auto.
    destruct (String.eqb_spec s "keep") as [->|_]; simpl; auto.
    destruct (String.eqb_spec s "delete") as [->|_]; simpl; auto.
  - unfold mode_of. destruct (prop params "mode") as [| |b|x|s|]; auto.
    destruct (String.eqb_spec s "run") as [->|_]; simpl; auto.
    destruct (String.eqb_spec s "session") as [->|_]; simpl; auto.
  - unfold runTimeoutSeconds_of, normalizeTimeout, Math_max0.
    intros n. destruct (timeoutSecondsCandidate params) as [c|]; [|discriminate].
    destruct (Number_isFinite c); [|discriminate]. intros [= <-]. lia.
  - unfold or_undefined. destruct (label_of params); simpl; congruence.
Qed.

End Fields.

(** ** Further properties: whole seconds and the rejection message *)

Lemma Math_floor_integer x n : denotes_integer x n -> Math_floor x = n.
Proof.
  destruct x as [s|s| |s m e]; simpl; try contradiction; [congruence|].
  destruct (Z.leb_spec 0 e) as [E|E]; intros H.
  - rewrite Z.shiftl_mul_pow2 by exact E. congruence.
  - rewrite <- (Z.opp_involutive e) at 1.
    rewrite Z.shiftl_opp_r, Z.shiftr_div_pow2 by lia.
    rewrite H. apply Z.div_mul.
    assert (0 < 2 ^ (- e)) by (apply Z.pow_pos_nonneg; lia). lia.
Qed.

Lemma Math_floor_nonneg x :
  Number_isFinite x = true -> is_negative x = false -> 0 <= Math_floor x.
Proof.
  destruct x as [s|s| |s m e]; simpl; intros Hf Hn; try discriminate Hf; [lia|].
  destruct s; [discriminate Hn|]. simpl.
  apply Z.shiftl_nonneg. lia.
Qed.

Lemma occurs_in_self k : occurs_in k k.
Proof. exists "", "". now rewrite app_empty_r. Qed.

Lemma occurs_in_app_l k s b : occurs_in k s -> occurs_in k (s +:+ b).
Proof.
  intros (pre & post & ->). exists pre, (post +:+ b).
  now rewrite !app_assoc_string.
Qed.

Lemma occurs_in_app_r k a s : occurs_in k s -> occurs_in k (a +:+ s).
Proof.
  intros (pre & post & ->). exists (a +:+ pre), post.
  now rewrite !app_assoc_string.
Qed.

Lemma concat_occurs sep k keys : In k keys -> occurs_in k (String.concat sep keys).
Proof.
  induction keys as [|x keys IH]; [intros []|].
  intros [->|H].
  - destruct keys as [|y keys]; simpl; [apply occurs_in_self|].
    apply occurs_in_app_l, occurs_in_self.
  - destruct keys as [|y keys]; [destruct H|].
    change (String.concat sep (x :: y :: keys))
      with (x +:+ sep +:+ String.concat sep (y :: keys)).
    apply occurs_in_app_r, occurs_in_app_r, IH, H.
Qed.

Section Messages.

Context {W : Collaborators}.
Variable opts : option ToolOpts.t.
Variable params : gmap string JsValue.

(** A timeout that is finite and not negative is forwarded as its floor,
    never clamped; one that is a whole number of seconds is forwarded
    unchanged.  This holds for whichever of [runTimeoutSeconds] and
    [timeoutSeconds] supplies the number. *)
Theorem whole_seconds_unchanged req ctx x :
  In (EvSpawn req ctx) (snd (run (execute opts params))) ->
  timeoutSecondsCandidate params = Some x ->
  Number_isFinite x = true -> is_negative x = false ->
  (exists z, is_floor z x /\ 0 <= z /\ runTimeoutSeconds req = Some z) /\
  (forall n, denotes_integer x n -> runTimeoutSeconds req = Some n).
Proof.
  intros H Hc Hf Hn.
  apply spawn_event_inv in H as (loads & t & _ & _ & _ & _ & -> & _).
  simpl. unfold runTimeoutSeconds_of, normalizeTimeout, Math_max0.
  rewrite Hc, Hf. pose proof (Math_floor_nonneg x Hf Hn) as Hz.
  rewrite Z.max_r by exact Hz. split.
  - exists (Math_floor x). repeat split; auto. now apply Math_floor_spec.
  - intros n Hd. now rewrite (Math_floor_integer x n Hd).
Qed.

(** The "model not allowed" rejection names the rejected key and every
    allowed key, so that the caller can read off what to ask for. *)
Theorem rejection_lists_allowed_keys m parsed :
  task_present params ->
  prop params "model" = JsString m -> m <> "" ->
  allowAny current_allowed = false ->
  parseModelRef m DEFAULT_PROVIDER = Some parsed ->
  ~ In (modelKey (ModelRef.provider parsed) (ModelRef.model parsed))
       (allowedKeys current_allowed) ->
  exists body,
    verdict (run (execute opts params)) = VRejected body /\
    occurs_in (modelKey (ModelRef.provider parsed) (ModelRef.model parsed)) (error body) /\
    (forall k, In k (allowedKeys current_allowed) -> occurs_in k (error body)).
Proof.
  intros (t & Ht & Hb) Hm Hn Ha Hp Hk. rewrite <- is_blank_all_whitespace in Hb.
  pose proof (readStringParam_string params "model" m Hm Hn) as Hr.
  assert (Hs : Set_has (allowedKeys current_allowed)
                 (modelKey (ModelRef.provider parsed) (ModelRef.model parsed)) = false)
    by (apply not_true_is_false; now rewrite Set_has_In).
  eexists. rewrite (run_not_allowed opts params t m parsed) by auto.
  split; [reflexivity|]. simpl. unfold js_join. split.
  - apply occurs_in_app_r, occurs_in_app_l, occurs_in_self.
  - intros k Hin. do 3 apply occurs_in_app_r. now apply concat_occurs.
Qed.

End Messages.

Section Override.

Context {W : Collaborators}.
Variable opts : option ToolOpts.t.
Variable params : gmap string JsValue.

(** A [model] that is the empty string or is not a string counts as no
    override: with the required [task] there, the request is forwarded
    without a model and without any load or check, under a restrictive
    allowlist too. *)
Theorem empty_override_unchecked t :
  prop params "task" = JsString t -> all_whitespace t = false ->
  (forall m, prop params "model" = JsString m -> m = "") ->
  run (execute opts params) =
    (Returned (jsonResult (SpawnPayload
       (spawn_service (spawnRequest_of t params) (requesterContext_of opts)))),
     [EvSpawn (spawnRequest_of t params) (requesterContext_of opts)]) /\
  model (spawnRequest_of t params) = None.
Proof.
  intros Ht Hb Hm. rewrite <- is_blank_all_whitespace in Hb.
  assert (Hr : readStringParam params "model" = None).
  { apply override_absent_read. intros (m & Em & En). now apply En, Hm. }
  rewrite (run_no_override opts params t) by (try rewrite Hr; auto).
  simpl. now rewrite Hr.
Qed.

End Override.

(** ** The further properties at concrete inputs *)

Lemma allowlist_safety_witness :
  (allowAny (current_allowed (W := Demo.world Demo.restrictive)) = true \/
   exists parsed,
     Demo.parse "claude-sonnet" "anthropic" = Some parsed /\
     In (Demo.key (ModelRef.provider parsed) (ModelRef.model parsed))
        (allowedKeys Demo.restrictive)) /\
  snd (run (execute (W := Demo.world Demo.restrictive) no_opts (with_model "claude-sonnet"))) =
    [EvLoadConfig; EvLoadModelCatalog;
     EvSpawn (spawnRequest_of "summarize doc" (with_model "claude-sonnet"))
             (requesterContext_of no_opts)].
Proof.
  apply (allowlist_safety (W := Demo.world Demo.restrictive) no_opts
           (with_model "claude-sonnet")
           (spawnRequest_of "summarize doc" (with_model "claude-sonnet"))
           (requesterContext_of no_opts) "claude-sonnet").
  - vm_compute. right. right. left. reflexivity.
  - reflexivity.
Defined.

Lemma loads_iff_override_witness :
  load_calls (snd (run (execute (W := Demo.world Demo.permissive) no_opts
                          (with_model "claude-sonnet")))) = 2%nat /\
  load_calls (snd (run (execute (W := Demo.world Demo.permissive) no_opts
                          scenario))) = 0%nat.
Proof.
  split.
  - apply (proj1 (loads_iff_override (W := Demo.world Demo.permissive) no_opts
                    (with_model "claude-sonnet"))).
    split.
    + exists "summarize doc". split; reflexivity.
    + exists "claude-sonnet". split; [reflexivity|discriminate].
  - apply (proj2 (loads_iff_override (W := Demo.world Demo.permissive) no_opts scenario)).
    intros [_ (m & Hm & _)]. discriminate Hm.
Defined.

Lemma verdict_frame_witness :
  verdict (run (execute (W := Demo.world Demo.restrictive) no_opts
                  (<["thread" := JsString "yes"]> (with_model "gpt-unknown")))) =
  verdict (run (execute (W := Demo.world Demo.restrictive) no_opts
                  (with_model "gpt-unknown"))).
Proof.
  apply (verdict_frame (W := Demo.world Demo.restrictive) no_opts
           (with_model "gpt-unknown")
           (<["thread" := JsString "yes"]> (with_model "gpt-unknown")));
    reflexivity.
Defined.

Lemma declared_keys_frame_witness :
  run (execute (W := Demo.world Demo.permissive) no_opts with_undeclared) =
  run (execute (W := Demo.world Demo.permissive) no_opts scenario).
Proof.
  apply (declared_keys_frame (W := Demo.world Demo.permissive) no_opts
           scenario with_undeclared ["run"; "session"]).
  intros k Hk. simpl in Hk.
  repeat (destruct Hk as [<-|Hk]; [reflexivity|]). destruct Hk.
Defined.


Lemma thread_strict_witness :
  thread (spawnRequest_of "summarize doc" (<["thread" := JsString "true"]> scenario)) = true <->
  prop (<["thread" := JsString "true"]> scenario) "thread" = JsBoolean true.
Proof.
  apply (thread_strict (W := Demo.world Demo.permissive) no_opts
           (<["thread" := JsString "true"]> scenario) _ (requesterContext_of no_opts)).
  vm_compute. left. reflexivity.
Defined.

Lemma forwarded_request_invariant_witness :
  expectsCompletionMessage scenario_request = true /\
  (cleanup scenario_request = "keep" \/ cleanup scenario_request = "delete") /\
  (mode scenario_request = None \/ mode scenario_request = Some "run" \/
   mode scenario_request = Some "session") /\
  (forall n, runTimeoutSeconds scenario_request = Some n -> 0 <= n) /\
  label scenario_request <> Some "" /\
  requesterContext_of no_opts = requesterContext_of no_opts.
Proof.
  apply (forwarded_request_invariant (W := Demo.world Demo.permissive) no_opts scenario).
  vm_compute. left. reflexivity.
Defined.

Lemma whole_seconds_unchanged_witness :
  denotes_integer num_45 45 /\
  runTimeoutSeconds (spawnRequest_of "summarize doc" with_label) = Some 45.
Proof.
  split; [reflexivity|].
  apply (proj2 (whole_seconds_unchanged (W := Demo.world Demo.permissive) no_opts
                  with_label _ (requesterContext_of no_opts) num_45
                  ltac:(vm_compute; left; reflexivity) eq_refl eq_refl eq_refl) 45).
  reflexivity.
Defined.

Lemma rejection_lists_allowed_keys_witness :
  exists body,
    verdict (run (execute (W := Demo.world Demo.restrictive) no_opts
                    (with_model "gpt-unknown"))) = VRejected body /\
    occurs_in "anthropic/gpt-unknown" (error body) /\
    (forall k, In k ["anthropic/claude-sonnet"; "openai/gpt-4o"] -> occurs_in k (error body)).
Proof.
  apply (rejection_lists_allowed_keys (W := Demo.world Demo.restrictive) no_opts
           (with_model "gpt-unknown") "gpt-unknown"
           (ModelRef.make "anthropic" "gpt-unknown")); try reflexivity.
  - exists "summarize doc". split; reflexivity.
  - discriminate.
  - simpl. intros [H|[H|[]]]; discriminate H.
Defined.

Lemma empty_override_unchecked_witness :
  run (execute (W := Demo.world Demo.restrictive) no_opts (with_model "")) =
    (Returned (jsonResult (SpawnPayload (W := Demo.world Demo.restrictive)
                             "accepted: summarize doc")),
     [EvSpawn (spawnRequest_of "summarize doc" (with_model "")) (requesterContext_of no_opts)]) /\
  model (spawnRequest_of "summarize doc" (with_model "")) = None.
Proof.
  apply (empty_override_unchecked (W := Demo.world Demo.restrictive) no_opts
           (with_model "") "summarize doc"); try reflexivity.
  intros m [= <-]. reflexivity.
Defined.
